(** * The sidebar / main-content minimum-width synchronizer

    A shallow embedding of [themes/joelving/static/js/minWidth.js]:

<<
    window.onload = updateMinWidth;
    window.onresize = updateMinWidth;
    document.getElementById("sidebar").addEventListener("transitionend", updateMinWidth);
    function updateMinWidth() {
      var sidebar = document.getElementById("sidebar");
      var main = document.getElementById("main");
      main.style.minWidth = "";
      var w1 = getComputedStyle(main).getPropertyValue("min-width");
      var w2 = getComputedStyle(sidebar).getPropertyValue("width");
      var w3 = getComputedStyle(sidebar).getPropertyValue("left");
      main.style.minWidth = `calc(${w1} - ${w2} - ${w3})`;
    }
>>

    The page is an explicit state: a finite map from element ids to
    elements, the two [window] handler slots, and a log of the inline-style
    assignments performed so far.  Script code lives in a
    state-and-exception monad: a statement either returns or throws, and the
    effects made before a throw stay in the state, as in JavaScript.

    What the browser does is kept apart from what the script does.  The
    log records every value the script assigns; the inline declaration
    block records what the style setter keeps of it, and the setter drops a
    text that does not parse as a value of the property. *)

From stdpp Require Import base option strings pretty list gmap fin_maps.
From Stdlib Require Import ZArith Lia Ascii.

Open Scope string_scope.


(** ** The page *)

(** Function values held in handler slots and listener lists: the script's
    one function, and the functions of other scripts on the page, known by
    name only. *)
Inductive handler :=
| UpdateMinWidth
| Foreign (name : string).

(** Exceptions the script can raise. *)
Inductive exn := TypeError.

(** An element.  [style] is the inline declaration block ([el.style]);
    [sheet] holds the values the element gets from the style sheets and from
    layout when no inline declaration interferes; [listeners] is the list of
    (event type, handler) pairs added with [addEventListener]. *)
Record element := Element {
  style : gmap string string;
  sheet : gmap string string;
  listeners : list (string * handler)
}.

(** One assignment to an inline style property: element id, property, and
    the value assigned (whether or not the setter keeps it). *)
Record write := Write {
  w_target : string;
  w_prop : string;
  w_value : string
}.

Record page := Page {
  onload : option handler;
  onresize : option handler;
  document : gmap string element;
  trace : list write
}.

(** ** The script monad *)

Inductive outcome (A : Type) :=
| Return (a : A)
| Throw (e : exn).
Arguments Return {A} a.
Arguments Throw {A} e.

Definition js (A : Type) : Type := page → outcome A * page.

Definition js_ret {A} (a : A) : js A := λ p, (Return a, p).

Definition js_bind {A B} (m : js A) (k : A → js B) : js B :=
  λ p, match m p with
       | (Return a, p') => k a p'
       | (Throw e, p') => (Throw e, p')
       end.

Definition throw {A} (e : exn) : js A := λ p, (Throw e, p).

Declare Scope js_scope.
Delimit Scope js_scope with js.
Notation "'let*' x := m 'in' k" := (js_bind m (λ x, k))
  (at level 10, x name, m at level 100, k at level 200) : js_scope.
Notation "m ;; k" := (js_bind m (λ _, k))
  (at level 100, k at level 200, right associativity) : js_scope.

(** ** Pixel expressions

    The script hands the composed text to the engine and never evaluates it.
    To state what an applied override amounts to, [calc_px] evaluates the
    fragment of CSS [calc()] the script can produce from pixel measurements:
    whole-pixel lengths with an optional sign, combined by [+] and [-] that
    are set off by spaces.  [calc_px] gives the value of the expression;
    [used_min_width] is what the engine makes of it as a minimum width,
    where a negative length counts as zero. *)

Definition is_digit (c : ascii) : bool :=
  let n := nat_of_ascii c in (48 <=? n)%nat && (n <=? 57)%nat.

Definition digit_val (c : ascii) : Z := Z.of_nat (nat_of_ascii c) - 48.

(** Digits followed by the unit [px]; [seen] records that a digit was read. *)
Fixpoint px_digits (s : string) (acc : Z) (seen : bool) : option Z :=
  match s with
  | String c rest =>
      if is_digit c then px_digits rest (10 * acc + digit_val c)%Z true
      else if seen && bool_decide (s = "px") then Some acc else None
  | EmptyString => None
  end.

Definition parse_px (s : string) : option Z :=
  match s with
  | String "-" rest => Z.opp <$> px_digits rest 0 false
  | String "+" rest => px_digits rest 0 false
  | _ => px_digits s 0 false
  end.

(** The pieces of [s] between spaces; [cur] is the piece being read. *)
Fixpoint words (s : string) (cur : string) : list string :=
  match s with
  | EmptyString => [cur]
  | String c rest =>
      if bool_decide (c = " "%char) then cur :: words rest ""
      else words rest (cur +:+ String c "")
  end.

Fixpoint eval_terms (acc : Z) (toks : list string) : option Z :=
  match toks with
  | [] => Some acc
  | op :: t :: rest =>
      match parse_px t with
      | Some v =>
          if bool_decide (op = "-") then eval_terms (acc - v)%Z rest
          else if bool_decide (op = "+") then eval_terms (acc + v)%Z rest
          else None
      | None => None
      end
  | _ => None
  end.

Definition calc_px (s : string) : option Z :=
  if String.prefix "calc(" s
     && bool_decide (String.substring (String.length s - 1) 1 s = ")")
  then
    match words (String.substring 5 (String.length s - 6) s) "" with
    | t :: rest =>
        match parse_px t with
        | Some v => eval_terms v rest
        | None => None
        end
    | [] => None
    end
  else None.

Definition used_min_width (s : string) : option Z := Z.max 0 <$> calc_px s.

(** ** The browser interface used by the script *)

(** A missing inline declaration reads as the empty string. *)
Definition inline (el : element) (prop : string) : string :=
  default "" (style el !! prop).

Definition set_style (prop v : string) (el : element) : element :=
  Element (<[prop := v]> (style el)) (sheet el) (listeners el).

Definition add_listener (ev : string) (h : handler) (el : element) : element :=
  Element (style el) (sheet el) (listeners el ++ [(ev, h)]).

(** [document.getElementById(id)]: the element's handle, or [null]. *)
Definition getElementById (id : string) : js (option string) :=
  λ p, (Return (match document p !! id with
               | Some _ => Some id
               | None => None
               end), p).

(** [window.onload = h] and [window.onresize = h]. *)
Definition set_onload (h : handler) : js unit :=
  λ p, (Return (), Page (Some h) (onresize p) (document p) (trace p)).

Definition set_onresize (h : handler) : js unit :=
  λ p, (Return (), Page (onload p) (Some h) (document p) (trace p)).

(** [e.addEventListener(ev, h)]; a property access on [null] throws. *)
Definition addEventListener (e : option string) (ev : string) (h : handler)
  : js unit :=
  match e with
  | None => throw TypeError
  | Some id => λ p,
      (Return (),
       Page (onload p) (onresize p)
            (alter (add_listener ev h) id (document p)) (trace p))
  end.

Section Browser.

(** Two things are left to the engine.  [accepts prop v] tells whether it
    takes the text [v] as a value of [prop], beyond the texts every engine
    takes (see [parses]).  [cascade] gives the value it computes for a
    property that has a non-empty inline declaration, from the property,
    the declared inline value and the style-sheet value.  The script
    depends on neither. *)
Variable accepts : string → string → bool.
Variable cascade : string → string → string → string.

(** The texts the style setter keeps: the empty string, which clears the
    declaration; every pixel expression [calc_px] can evaluate, all of them
    well-formed CSS; and whatever else the engine accepts. *)
Definition parses (prop v : string) : bool :=
  bool_decide (v = "")
  || match calc_px v with Some _ => true | None => false end
  || accepts prop v.

(** The style setter on an element: a text that does not parse leaves the
    declaration block as it was.  A text that parses is kept as assigned;
    how the engine prints it back is not modelled. *)
Definition store (prop v : string) (el : element) : element :=
  if parses prop v then set_style prop v el else el.

(** [e.style.<prop> = v]; a property access on [null] throws.  The
    assignment is logged with the value assigned. *)
Definition assign_style (e : option string) (prop v : string) : js unit :=
  match e with
  | None => throw TypeError
  | Some id => λ p,
      (Return (),
       Page (onload p) (onresize p)
            (alter (store prop v) id (document p))
            (trace p ++ [Write id prop v]))
  end.

(** The computed value of a property of an element. *)
Definition computed (el : element) (prop : string) : string :=
  let base := default "" (sheet el !! prop) in
  if decide (inline el prop = "") then base
  else cascade prop (inline el prop) base.

(** [getComputedStyle(e).getPropertyValue(prop)]; [getComputedStyle(null)]
    throws.  A handle is the id under which [getElementById] found the
    element; nothing removes an element during a call, so the inner [None]
    branch is never taken by the script. *)
Definition getComputedPropertyValue (e : option string) (prop : string)
  : js string :=
  match e with
  | None => throw TypeError
  | Some id => λ p,
      match document p !! id with
      | Some el => (Return (computed el prop), p)
      | None => (Throw TypeError, p)
      end
  end.

(** The template literal [`calc(${w1} - ${w2} - ${w3})`]. *)
Definition calc_expr (w1 w2 w3 : string) : string :=
  "calc(" +:+ w1 +:+ " - " +:+ w2 +:+ " - " +:+ w3 +:+ ")".

Definition updateMinWidth : js unit :=
  (let* sidebar := getElementById "sidebar" in
   let* main := getElementById "main" in
   assign_style main "min-width" "" ;;
   let* w1 := getComputedPropertyValue main "min-width" in
   let* w2 := getComputedPropertyValue sidebar "width" in
   let* w3 := getComputedPropertyValue sidebar "left" in
   assign_style main "min-width" (calc_expr w1 w2 w3))%js.

(** The top level of the script.  Function declarations are hoisted, so
    [updateMinWidth] is already bound on the first line. *)
Definition script : js unit :=
  (set_onload UpdateMinWidth ;;
   set_onresize UpdateMinWidth ;;
   let* sb := getElementById "sidebar" in
   addEventListener sb "transitionend" UpdateMinWidth)%js.

(** The three measurements of a call on a page whose main element is [m]
    and whose sidebar is [sb], composed into the expression assigned. *)
Definition applied (m sb : element) : string :=
  calc_expr (computed (set_style "min-width" "" m) "min-width")
            (computed sb "width") (computed sb "left").

(** The main element a call leaves when it found the main element [m] and
    the sidebar [sb]: the override cleared, then the composed expression put
    through the setter. *)
Definition final (m sb : element) : element :=
  store "min-width" (applied m sb) (set_style "min-width" "" m).

End Browser.

(** What a call may change: nothing but the inline [min-width] of the
    element with id [main]. *)
Definition only_min_width_of_main (p p' : page) : Prop :=
  onload p' = onload p ∧
  onresize p' = onresize p ∧
  (∀ id, id ≠ "main" → document p' !! id = document p !! id) ∧
  match document p !! "main", document p' !! "main" with
  | Some m, Some m' =>
      (∀ prop, prop ≠ "min-width" → style m' !! prop = style m !! prop) ∧
      sheet m' = sheet m ∧ listeners m' = listeners m
  | None, None => True
  | _, _ => False
  end.

(** ** Events

    The engine's side of the handlers the script installs.  A handler slot
    or listener holds a function; when the event occurs the engine calls
    it.  An exception thrown by a handler is reported by the engine and goes
    no further; what the handler did before stays.  What the functions of
    other scripts do is not known here: [foreign] stands for it. *)

Section Events.

Variable accepts : string → string → bool.
Variable cascade : string → string → string → string.
Variable foreign : string → js unit.

Definition call (h : handler) : js unit :=
  match h with
  | UpdateMinWidth => updateMinWidth accepts cascade
  | Foreign name => foreign name
  end.

Definition dispatch (h : handler) (p : page) : page := (call h p).2.

(** The [load] and [resize] events of the window. *)
Definition fire_load (p : page) : page :=
  match onload p with
  | Some h => dispatch h p
  | None => p
  end.

Definition fire_resize (p : page) : page :=
  match onresize p with
  | Some h => dispatch h p
  | None => p
  end.

(** The listeners of an element for one event type, in the order added. *)
Definition handlers_for (ev : string) (ls : list (string * handler))
  : list handler :=
  (filter (λ l, l.1 = ev) ls).*2.

(** An event of type [ev] on the element with id [id]: the listeners
    registered at that moment run one after the other. *)
Definition fire (id ev : string) (p : page) : page :=
  match document p !! id with
  | Some el => foldl (λ q h, dispatch h q) p (handlers_for ev (listeners el))
  | None => p
  end.

End Events.

(** A measurement that is one token: it contains no space. *)
Fixpoint no_space (s : string) : bool :=
  match s with
  | EmptyString => true
  | String c rest => negb (bool_decide (c = " "%char)) && no_space rest
  end.

(** ** Concrete pages *)

(** An engine that accepts no text beyond those every engine takes. *)
Definition px_only (prop v : string) : bool := false.

(** An engine that resolves what [calc_px] can evaluate, keeps a declared
    pixel length, and falls back to the style-sheet value otherwise. *)
Definition px_engine (prop v base : string) : string :=
  match calc_px v with
  | Some n => pretty n +:+ "px"
  | None => match parse_px v with Some _ => v | None => base end
  end.

(** Other scripts whose listeners do nothing to the page. *)
Definition idle (name : string) : js unit := js_ret ().

(** A main element that still carries the override of an earlier call. *)
Definition main0 : element :=
  Element {[ "min-width" := "calc(600px - 64px - 0px)"; "color" := "red" ]}
          {[ "min-width" := "600px" ]} [].

Definition sidebar0 : element :=
  Element ∅ {[ "width" := "240px"; "left" := "0px" ]}
          [("transitionend", UpdateMinWidth)].

Definition sidebar_collapsed : element :=
  Element ∅ {[ "width" := "240px"; "left" := "-240px" ]}
          [("transitionend", UpdateMinWidth)].

(** The sidebar below a responsive breakpoint. *)
Definition sidebar_narrow : element :=
  Element ∅ {[ "width" := "64px"; "left" := "0px" ]}
          [("transitionend", UpdateMinWidth)].

(** A sidebar that is not positioned and has no definite width. *)
Definition sidebar_static : element :=
  Element ∅ {[ "width" := "fit-content"; "left" := "auto" ]} [].

(** A sidebar another script listens to as well. *)
Definition sidebar_shared : element :=
  Element ∅ {[ "width" := "240px"; "left" := "0px" ]}
          [("transitionend", Foreign "analytics"); ("click", Foreign "toggle")].

Definition page_of (d : gmap string element) : page :=
  Page (Some UpdateMinWidth) (Some UpdateMinWidth) d [].

Definition page0 : page :=
  page_of {[ "main" := main0; "sidebar" := sidebar0 ]}.

Definition page_collapsed : page :=
  page_of {[ "main" := main0; "sidebar" := sidebar_collapsed ]}.

Definition page_static : page :=
  page_of {[ "main" := main0; "sidebar" := sidebar_static ]}.

Definition page_shared : page :=
  page_of {[ "main" := main0; "sidebar" := sidebar_shared ]}.

Definition page_no_sidebar : page := page_of {[ "main" := main0 ]}.

Definition page_no_main : page := page_of {[ "sidebar" := sidebar0 ]}.

(** A main element whose style sheet gives no definite [min-width]. *)
Definition main_auto : element :=
  Element ∅ {[ "min-width" := "auto" ]} [].

Definition page_auto : page :=
  page_of {[ "main" := main_auto; "sidebar" := sidebar_static ]}.

(** A narrow main element: less than the sidebar takes. *)
Definition main_narrow : element :=
  Element ∅ {[ "min-width" := "100px" ]} [].

Definition page_narrow : page :=
  page_of {[ "main" := main_narrow; "sidebar" := sidebar0 ]}.

(** * Properties *)

(** ** The engine model on examples *)

Example calc_px_ex1 : calc_px "calc(600px - 240px - 0px)" = Some 360%Z.
Proof. reflexivity. Qed.
Example calc_px_ex2 : calc_px "calc(600px - 240px - -240px)" = Some 600%Z.
Proof. reflexivity. Qed.
Example calc_px_ex3 : calc_px "calc(600px - auto - 0px)" = None.
Proof. reflexivity. Qed.
Example calc_px_ex4 : calc_px "calc(100px + 20px - 5px)" = Some 115%Z.
Proof. reflexivity. Qed.
Example calc_px_ex5 : calc_px "600px" = None.
Proof. reflexivity. Qed.
Example used_min_width_ex1 :
  calc_px "calc(100px - 240px - 0px)" = Some (-140)%Z ∧
  used_min_width "calc(100px - 240px - 0px)" = Some 0%Z.
Proof. split; reflexivity. Qed.

(** ** Elementary facts about the store *)

Lemma inline_set_style_eq prop v el : inline (set_style prop v el) prop = v.
Proof. unfold inline, set_style; simpl. by rewrite lookup_insert_eq. Qed.

Lemma inline_set_style_ne prop prop' v el :
  prop ≠ prop' → inline (set_style prop v el) prop' = inline el prop'.
Proof.
  intros Hne. unfold inline, set_style; simpl. by rewrite lookup_insert_ne.
Qed.

Lemma set_style_set_style prop v v' el :
  set_style prop v' (set_style prop v el) = set_style prop v' el.
Proof. unfold set_style; simpl. by rewrite insert_insert_eq. Qed.

Lemma alter_present (f : element → element) id el (d : gmap string element) :
  d !! id = Some el → alter f id d = <[id := f el]> d.
Proof.
  intros Hel. apply map_eq; intros j.
  destruct (decide (id = j)) as [<- | Hne].
  - by rewrite lookup_alter_eq, lookup_insert_eq, Hel.
  - by rewrite lookup_alter_ne, lookup_insert_ne.
Qed.

Lemma alter_absent (f : element → element) id (d : gmap string element) :
  d !! id = None → alter f id d = d.
Proof.
  intros Hel. apply map_eq; intros j.
  destruct (decide (id = j)) as [<- | Hne].
  - by rewrite lookup_alter_eq, Hel.
  - by rewrite lookup_alter_ne.
Qed.


(** ** Stepping through a script *)

Lemma bind_return {A B} (m : js A) (k : A → js B) p a p' :
  m p = (Return a, p') → js_bind m k p = k a p'.
Proof. intros H. unfold js_bind. by rewrite H. Qed.

Lemma bind_throw {A B} (m : js A) (k : A → js B) p e p' :
  m p = (Throw e, p') → js_bind m k p = (Throw e, p').
Proof. intros H. unfold js_bind. by rewrite H. Qed.

Lemma getElementById_present id el p :
  document p !! id = Some el → getElementById id p = (Return (Some id), p).
Proof. intros H. unfold getElementById. by rewrite H. Qed.

Lemma getElementById_absent id p :
  document p !! id = None → getElementById id p = (Return None, p).
Proof. intros H. unfold getElementById. by rewrite H. Qed.

Section Runs.

Variable accepts : string → string → bool.
Variable cascade : string → string → string → string.

Local Abbreviation computed := (computed cascade).
Local Abbreviation updateMinWidth := (updateMinWidth accepts cascade).
Local Abbreviation getComputedPropertyValue :=
  (getComputedPropertyValue cascade).

(** *** The style setter *)

Lemma parses_empty prop : parses accepts prop "" = true.
Proof. reflexivity. Qed.

Lemma parses_px prop v n : calc_px v = Some n → parses accepts prop v = true.
Proof.
  intros Hv. unfold parses. rewrite Hv.
  by destruct (bool_decide (v = "")).
Qed.

Lemma store_empty prop el : store accepts prop "" el = set_style prop "" el.
Proof. reflexivity. Qed.

Lemma sheet_store prop v el : sheet (store accepts prop v el) = sheet el.
Proof. unfold store. by destruct (parses accepts prop v). Qed.

Lemma listeners_store prop v el :
  listeners (store accepts prop v el) = listeners el.
Proof. unfold store. by destruct (parses accepts prop v). Qed.

Lemma style_store_ne prop prop' v el :
  prop ≠ prop' → style (store accepts prop v el) !! prop' = style el !! prop'.
Proof.
  intros Hne. unfold store. destruct (parses accepts prop v); [|done].
  simpl. by rewrite lookup_insert_ne.
Qed.

(** On a cleared declaration the setter leaves the text if it parses and
    nothing otherwise. *)
Lemma inline_store_cleared prop v el :
  inline (store accepts prop v (set_style prop "" el)) prop
  = if parses accepts prop v then v else "".
Proof.
  unfold store. destruct (parses accepts prop v);
    by rewrite inline_set_style_eq.
Qed.

Lemma store_cleared_again prop v el :
  set_style prop "" (store accepts prop v (set_style prop "" el))
  = set_style prop "" el.
Proof.
  unfold store. destruct (parses accepts prop v);
    by rewrite !set_style_set_style.
Qed.

Lemma store_cleared_accepted prop v el :
  parses accepts prop v = true →
  store accepts prop v (set_style prop "" el) = set_style prop v el.
Proof.
  intros Hv. unfold store. by rewrite Hv, set_style_set_style.
Qed.

Lemma assign_style_present id el prop v p :
  document p !! id = Some el →
  assign_style accepts (Some id) prop v p =
    (Return (),
     Page (onload p) (onresize p)
          (<[id := store accepts prop v el]> (document p))
          (trace p ++ [Write id prop v])).
Proof. intros H. unfold assign_style. by rewrite (alter_present _ _ _ _ H). Qed.

(** *** Measuring *)

Lemma getComputed_present id el prop p :
  document p !! id = Some el →
  getComputedPropertyValue (Some id) prop p = (Return (computed el prop), p).
Proof. intros H. unfold getComputedPropertyValue. by rewrite H. Qed.

(** With the override cleared, the computed value is the style-sheet one. *)
Lemma computed_cleared prop el :
  computed (set_style prop "" el) prop = default "" (sheet el !! prop).
Proof. unfold computed. by rewrite inline_set_style_eq. Qed.

(** An inline override does take part in the computed value, so measuring
    without clearing it first would measure the script's own output. *)
Lemma computed_overridden prop v el :
  v ≠ "" →
  computed (set_style prop v el) prop
  = cascade prop v (default "" (sheet el !! prop)).
Proof.
  intros Hv. unfold computed. rewrite inline_set_style_eq; simpl.
  by destruct (decide (v = "")).
Qed.

Lemma applied_unfold m sb :
  applied cascade m sb
  = calc_expr (default "" (sheet m !! "min-width"))
              (computed sb "width") (computed sb "left").
Proof. unfold applied. by rewrite computed_cleared. Qed.

(** *** The main element after a call *)

(** It depends on [m] only up to the inline [min-width]. *)
Lemma final_cleared m m' sb :
  set_style "min-width" "" m = set_style "min-width" "" m' →
  final accepts cascade m sb = final accepts cascade m' sb.
Proof. intros Heq. unfold final, applied. by rewrite Heq. Qed.

Lemma final_set_style v m sb :
  final accepts cascade (set_style "min-width" v m) sb
  = final accepts cascade m sb.
Proof. apply final_cleared. by rewrite set_style_set_style. Qed.

Lemma final_final m sb :
  final accepts cascade (final accepts cascade m sb) sb
  = final accepts cascade m sb.
Proof. apply final_cleared. unfold final. apply store_cleared_again. Qed.

Lemma applied_final m sb sb2 :
  applied cascade (final accepts cascade m sb) sb2 = applied cascade m sb2.
Proof.
  unfold applied at 1. unfold final. by rewrite store_cleared_again.
Qed.

Lemma inline_final m sb :
  inline (final accepts cascade m sb) "min-width"
  = if parses accepts "min-width" (applied cascade m sb)
    then applied cascade m sb else "".
Proof. apply inline_store_cleared. Qed.

(** *** The three runs of [updateMinWidth] *)

(** Both elements are on the page. *)
Lemma updateMinWidth_run p m sb :
  document p !! "main" = Some m →
  document p !! "sidebar" = Some sb →
  updateMinWidth p =
    (Return (),
     Page (onload p) (onresize p)
          (<["main" := final accepts cascade m sb]> (document p))
          (trace p ++ [Write "main" "min-width" "";
                       Write "main" "min-width" (applied cascade m sb)])).
Proof.
  intros Hm Hsb. unfold updateMinWidth.
  rewrite (bind_return _ _ _ _ _ (getElementById_present _ _ _ Hsb)).
  rewrite (bind_return _ _ _ _ _ (getElementById_present _ _ _ Hm)).
  rewrite (bind_return _ _ _ _ _ (assign_style_present _ _ _ _ _ Hm)).
  rewrite store_empty.
  set (p1 := Page _ _ _ _).
  assert (Hm1 : document p1 !! "main" = Some (set_style "min-width" "" m))
    by apply lookup_insert_eq.
  assert (Hsb1 : document p1 !! "sidebar" = Some sb)
    by (subst p1; simpl; by rewrite lookup_insert_ne).
  rewrite (bind_return _ _ _ _ _ (getComputed_present _ _ _ _ Hm1)).
  rewrite (bind_return _ _ _ _ _ (getComputed_present _ _ _ _ Hsb1)).
  rewrite (bind_return _ _ _ _ _ (getComputed_present _ _ _ _ Hsb1)).
  rewrite (assign_style_present _ _ _ _ _ Hm1).
  subst p1; simpl.
  by rewrite insert_insert_eq, <- app_assoc.
Qed.

(** The main element is missing: the first property access on [null]
    throws before anything is written. *)
Lemma updateMinWidth_no_main p :
  document p !! "main" = None →
  updateMinWidth p = (Throw TypeError, p).
Proof.
  intros Hm. unfold updateMinWidth.
  assert (Hsb : ∃ o, getElementById "sidebar" p = (Return o, p))
    by (unfold getElementById; eauto).
  destruct Hsb as [o Hsb].
  rewrite (bind_return _ _ _ _ _ Hsb).
  rewrite (bind_return _ _ _ _ _ (getElementById_absent _ _ Hm)).
  by apply bind_throw.
Qed.

(** Only the sidebar is missing: the override is cleared and measuring the
    sidebar throws. *)
Lemma updateMinWidth_no_sidebar p m :
  document p !! "main" = Some m →
  document p !! "sidebar" = None →
  updateMinWidth p =
    (Throw TypeError,
     Page (onload p) (onresize p)
          (<["main" := set_style "min-width" "" m]> (document p))
          (trace p ++ [Write "main" "min-width" ""])).
Proof.
  intros Hm Hsb. unfold updateMinWidth.
  rewrite (bind_return _ _ _ _ _ (getElementById_absent _ _ Hsb)).
  rewrite (bind_return _ _ _ _ _ (getElementById_present _ _ _ Hm)).
  rewrite (bind_return _ _ _ _ _ (assign_style_present _ _ _ _ _ Hm)).
  rewrite store_empty.
  set (p1 := Page _ _ _ _).
  assert (Hm1 : document p1 !! "main" = Some (set_style "min-width" "" m))
    by apply lookup_insert_eq.
  rewrite (bind_return _ _ _ _ _ (getComputed_present _ _ _ _ Hm1)).
  by apply bind_throw.
Qed.

End Runs.

(** ** The synchronizer's contract *)

Section Synchronizer.

Variable accepts : string → string → bool.
Variable cascade : string → string → string → string.

Local Abbreviation computed := (computed cascade).
Local Abbreviation updateMinWidth := (updateMinWidth accepts cascade).

(** C1, as amended.  When the sidebar or the main element is missing, the
    call does not return: a [TypeError] escapes.  With the main element
    missing nothing at all is changed; with only the sidebar missing the
    main element's inline [min-width] has been set to the empty string, and
    that single write is the only change. *)
Theorem updateMinWidth_missing_element p :
  document p !! "sidebar" = None ∨ document p !! "main" = None →
  ∃ p', updateMinWidth p = (Throw TypeError, p') ∧
        (document p !! "main" = None → p' = p) ∧
        (∀ m, document p !! "main" = Some m →
              p' = Page (onload p) (onresize p)
                        (<["main" := set_style "min-width" "" m]> (document p))
                        (trace p ++ [Write "main" "min-width" ""])).
Proof.
  intros Habsent.
  destruct (document p !! "main") as [m|] eqn:Hm.
  - destruct Habsent as [Hsb | ?]; [|done].
    eexists; split; [by apply updateMinWidth_no_sidebar|].
    split; [done|]. by intros ? [= <-].
  - exists p. split; [by apply updateMinWidth_no_main|]. by split.
Qed.

(** C2.  Every call clears the override before it measures: the first
    operand of the expression it assigns is the style-sheet [min-width] of
    the main element, whatever override the element carried.  Hence, after
    a call with sidebar [sb], a change of the sidebar to [sb2] and a second
    call, the second call assigns the expression built from the style-sheet
    [min-width] and the measurements of [sb2]; the inline [min-width] it
    leaves is that expression (or nothing, if the engine does not take it);
    and the document is the one a single call with [sb2] would have left.
    Nothing of [sb] or of the first override is in it. *)
Theorem override_cleared_before_measuring (p : page) (m sb sb2 : element) :
  document p !! "main" = Some m →
  document p !! "sidebar" = Some sb →
  let intrinsic := default "" (sheet m !! "min-width") in
  let e1 := "calc(" +:+ intrinsic +:+ " - " +:+ computed sb "width"
            +:+ " - " +:+ computed sb "left" +:+ ")" in
  let e2 := "calc(" +:+ intrinsic +:+ " - " +:+ computed sb2 "width"
            +:+ " - " +:+ computed sb2 "left" +:+ ")" in
  let swap r := Page (onload r) (onresize r)
                     (<["sidebar" := sb2]> (document r)) (trace r) in
  ∃ (p1 p2 : page) (m2 : element),
    updateMinWidth p = (Return (), p1) ∧
    trace p1 = (trace p ++ [Write "main" "min-width" "";
                            Write "main" "min-width" e1])%list ∧
    updateMinWidth (swap p1) = (Return (), p2) ∧
    trace p2 = (trace p1 ++ [Write "main" "min-width" "";
                             Write "main" "min-width" e2])%list ∧
    document p2 !! "main" = Some m2 ∧
    inline m2 "min-width"
      = (if parses accepts "min-width" e2 then e2 else "") ∧
    document p2 = document (updateMinWidth (swap p)).2.
Proof.
  intros Hm Hsb intrinsic e1 e2 swap.
  eexists _, _, (final accepts cascade m sb2).
  split; [by apply updateMinWidth_run|].
  split; [simpl; by rewrite applied_unfold|].
  assert (Hm1 : ∀ r m', document r !! "main" = Some m' →
                        document (swap r) !! "main" = Some m').
  { intros r m' Hr. subst swap; simpl. by rewrite lookup_insert_ne. }
  assert (Hsb1 : ∀ r, document (swap r) !! "sidebar" = Some sb2).
  { intros r. apply lookup_insert_eq. }
  split.
  { apply (updateMinWidth_run accepts cascade _ (final accepts cascade m sb) sb2);
      [|apply Hsb1].
    apply Hm1. apply lookup_insert_eq. }
  rewrite (updateMinWidth_run accepts cascade (swap p) m sb2 (Hm1 _ _ Hm)
             (Hsb1 _)).
  simpl. rewrite applied_final, !applied_unfold.
  split; [done|].
  rewrite (final_cleared accepts cascade (final accepts cascade m sb) m sb2)
    by apply store_cleared_again.
  split; [by rewrite lookup_insert_eq|].
  split; [by rewrite inline_final, applied_unfold|].
  apply map_eq; intros i.
  destruct (decide (i = "main")) as [-> | Hi].
  - by rewrite !lookup_insert_eq.
  - rewrite !(lookup_insert_ne _ "main") by done.
    destruct (decide (i = "sidebar")) as [-> | Hi'].
    + by rewrite !lookup_insert_eq.
    + by rewrite !lookup_insert_ne.
Qed.


(** C4.  For a fixed geometry a second call in succession applies the same
    expression as the first (the document is the same after both), and the
    expression applied does not depend on the override [v] the main element
    carried before the call. *)
Theorem updateMinWidth_idempotent p m sb v :
  document p !! "main" = Some m →
  document p !! "sidebar" = Some sb →
  ∃ p1 p2 p1',
    updateMinWidth p = (Return (), p1) ∧
    updateMinWidth p1 = (Return (), p2) ∧
    document p2 = document p1 ∧
    updateMinWidth
      (Page (onload p) (onresize p)
            (<["main" := set_style "min-width" v m]> (document p)) (trace p))
      = (Return (), p1') ∧
    document p1' = document p1.
Proof.
  intros Hm Hsb.
  eexists _, _, _.
  split; [by apply updateMinWidth_run|].
  split.
  { apply updateMinWidth_run with (sb := sb); simpl.
    - apply lookup_insert_eq.
    - by rewrite lookup_insert_ne. }
  split.
  { simpl. by rewrite insert_insert_eq, final_final. }
  split.
  { apply updateMinWidth_run with (sb := sb); simpl.
    - apply lookup_insert_eq.
    - by rewrite lookup_insert_ne. }
  simpl. by rewrite insert_insert_eq, final_set_style.
Qed.

(** C5.  Sidebar [width] 240px, [left] 0px, intrinsic [min-width] 600px:
    the override applied is [calc(600px - 240px - 0px)], which resolves to
    360 pixels. *)
Theorem scenario_expanded_sidebar p m sb :
  document p !! "main" = Some m →
  document p !! "sidebar" = Some sb →
  computed (set_style "min-width" "" m) "min-width" = "600px" →
  computed sb "width" = "240px" →
  computed sb "left" = "0px" →
  ∃ p' m',
    updateMinWidth p = (Return (), p') ∧
    document p' !! "main" = Some m' ∧
    inline m' "min-width" = "calc(600px - 240px - 0px)" ∧
    calc_px (inline m' "min-width") = Some 360%Z.
Proof.
  intros Hm Hsb H1 H2 H3.
  eexists _, (final accepts cascade m sb).
  split; [by apply updateMinWidth_run|].
  split; [by apply lookup_insert_eq|].
  rewrite inline_final. unfold applied. by rewrite H1, H2, H3.
Qed.

(** C6.  Collapsed sidebar, [left] -240px, [width] 240px, intrinsic
    [min-width] 600px: the override applied is
    [calc(600px - 240px - -240px)], which resolves to 600 pixels. *)
Theorem scenario_collapsed_sidebar p m sb :
  document p !! "main" = Some m →
  document p !! "sidebar" = Some sb →
  computed (set_style "min-width" "" m) "min-width" = "600px" →
  computed sb "width" = "240px" →
  computed sb "left" = "-240px" →
  ∃ p' m',
    updateMinWidth p = (Return (), p') ∧
    document p' !! "main" = Some m' ∧
    inline m' "min-width" = "calc(600px - 240px - -240px)" ∧
    calc_px (inline m' "min-width") = Some 600%Z.
Proof.
  intros Hm Hsb H1 H2 H3.
  eexists _, (final accepts cascade m sb).
  split; [by apply updateMinWidth_run|].
  split; [by apply lookup_insert_eq|].
  rewrite inline_final. unfold applied. by rewrite H1, H2, H3.
Qed.

Lemma only_min_width_of_main_put p m m' tr :
  document p !! "main" = Some m →
  (∀ prop, prop ≠ "min-width" → style m' !! prop = style m !! prop) →
  sheet m' = sheet m →
  listeners m' = listeners m →
  only_min_width_of_main p
    (Page (onload p) (onresize p) (<["main" := m']> (document p)) tr).
Proof.
  intros Hm Hst Hsh Hls. repeat split; simpl.
  - intros id Hid. by rewrite lookup_insert_ne.
  - by rewrite Hm, lookup_insert_eq.
Qed.

Lemma only_min_width_of_main_set p m v tr :
  document p !! "main" = Some m →
  only_min_width_of_main p
    (Page (onload p) (onresize p)
          (<["main" := set_style "min-width" v m]> (document p)) tr).
Proof.
  intros Hm. apply only_min_width_of_main_put with (m := m); try done.
  intros prop Hprop. simpl. by rewrite lookup_insert_ne.
Qed.

Lemma only_min_width_of_main_final p m sb tr :
  document p !! "main" = Some m →
  only_min_width_of_main p
    (Page (onload p) (onresize p)
          (<["main" := final accepts cascade m sb]> (document p)) tr).
Proof.
  intros Hm. apply only_min_width_of_main_put with (m := m); try done.
  - intros prop Hprop. unfold final.
    rewrite style_store_ne by done. simpl. by rewrite lookup_insert_ne.
  - unfold final. by rewrite sheet_store.
  - unfold final. by rewrite listeners_store.
Qed.

(** C7.  Every call, whether it returns or throws, assigns to one inline
    style property only, [min-width] of the main element: the writes it logs
    all have that target, and in the resulting page the handler slots, every
    other element, and the main element's other inline properties,
    style-sheet values and listeners are as before.  Whenever the page has
    a main element the property is indeed written. *)
Theorem updateMinWidth_frame p :
  let p' := (updateMinWidth p).2 in
  only_min_width_of_main p p' ∧
  (∃ ws : list write, trace p' = (trace p ++ ws)%list ∧
         Forall (λ w, w_target w = "main" ∧ w_prop w = "min-width") ws ∧
         (is_Some (document p !! "main") → ws ≠ [])).
Proof.
  destruct (document p !! "main") as [m|] eqn:Hm.
  - destruct (document p !! "sidebar") as [sb|] eqn:Hsb.
    + rewrite (updateMinWidth_run _ _ _ _ _ Hm Hsb); simpl.
      split; [by apply only_min_width_of_main_final|].
      eexists; split; [done|]. split; [|done].
      by repeat constructor.
    + rewrite (updateMinWidth_no_sidebar _ _ _ _ Hm Hsb); simpl.
      split; [by apply only_min_width_of_main_set|].
      eexists; split; [done|]. split; [|done].
      by repeat constructor.
  - rewrite (updateMinWidth_no_main _ _ _ Hm); simpl.
    split.
    + repeat split. by rewrite Hm.
    + exists []. rewrite app_nil_r. repeat split; [constructor|].
      by intros [? ?].
Qed.

(** C8.  Whatever strings [s1], [s2], [s3] the three measurements are,
    lengths or not, the call returns normally and the value it assigns to
    the main element's inline [min-width], after the clearing assignment,
    is [calc(s1 - s2 - s3)] with the three strings inserted unchanged.  The
    script checks nothing: what becomes of the text is left to the
    engine. *)
Theorem measurements_propagated_verbatim
    (s1 s2 s3 : string) (p : page) (m sb : element) :
  document p !! "main" = Some m →
  document p !! "sidebar" = Some sb →
  computed (set_style "min-width" "" m) "min-width" = s1 →
  computed sb "width" = s2 →
  computed sb "left" = s3 →
  ∃ p' : page,
    updateMinWidth p = (Return (), p') ∧
    trace p'
      = (trace p ++
         [Write "main" "min-width" "";
          Write "main" "min-width"
            ("calc(" +:+ s1 +:+ " - " +:+ s2 +:+ " - " +:+ s3 +:+ ")")])%list.
Proof.
  intros Hm Hsb <- <- <-.
  eexists. split; [by apply updateMinWidth_run|]. done.
Qed.


End Synchronizer.

(** ** Loading the script *)

(** With a sidebar on the page the script runs to its end and the sidebar
    gets the [transitionend] listener. *)
Lemma script_with_sidebar p sb :
  document p !! "sidebar" = Some sb →
  script p =
    (Return (),
     Page (Some UpdateMinWidth) (Some UpdateMinWidth)
          (<["sidebar" := add_listener "transitionend" UpdateMinWidth sb]>
             (document p))
          (trace p)).
Proof.
  intros Hsb. unfold script.
  rewrite (bind_return (set_onload UpdateMinWidth) _ p () _ eq_refl).
  rewrite (bind_return (set_onresize UpdateMinWidth) _ _ () _ eq_refl).
  set (p2 := Page _ _ _ _).
  rewrite (bind_return (getElementById "sidebar") _ p2 (Some "sidebar") p2
             (getElementById_present _ sb p2 Hsb)).
  unfold addEventListener; simpl.
  by rewrite (alter_present _ _ _ _ Hsb).
Qed.

(** Without a sidebar the script stops at the listener registration. *)
Lemma script_without_sidebar_run p :
  document p !! "sidebar" = None →
  script p =
    (Throw TypeError,
     Page (Some UpdateMinWidth) (Some UpdateMinWidth) (document p) (trace p)).
Proof.
  intros Hsb. unfold script.
  rewrite (bind_return (set_onload UpdateMinWidth) _ p () _ eq_refl).
  rewrite (bind_return (set_onresize UpdateMinWidth) _ _ () _ eq_refl).
  set (p2 := Page _ _ _ _).
  by rewrite (bind_return (getElementById "sidebar") _ p2 None p2
                (getElementById_absent _ p2 Hsb)).
Qed.

(** C9.  The top level dereferences the sidebar lookup unconditionally.
    When no element has id [sidebar] as the script runs, [addEventListener]
    is called on [null] and a [TypeError] ends the script: the load and
    resize handlers, assigned before, are in place, and the document is
    untouched, so no element has received the [transitionend] listener. *)
Theorem script_without_sidebar p :
  document p !! "sidebar" = None →
  script p =
    (Throw TypeError,
     Page (Some UpdateMinWidth) (Some UpdateMinWidth) (document p) (trace p)).
Proof.
  intros Hsb. unfold script.
  rewrite (bind_return (set_onload UpdateMinWidth) _ p () _ eq_refl).
  rewrite (bind_return (set_onresize UpdateMinWidth) _ _ () _ eq_refl).
  set (p2 := Page _ _ _ _).
  by rewrite (bind_return (getElementById "sidebar") _ p2 None p2
                (getElementById_absent _ p2 Hsb)).
Qed.

(** ** Runs on concrete pages *)

Example page0_override_resolved :
  computed px_engine main0 "min-width" = "536px".
Proof. vm_compute. reflexivity. Qed.

Example page0_run :
  document (updateMinWidth px_only px_engine page0).2 !! "main"
    ≫= (λ m, style m !! "min-width")
  = Some "calc(600px - 240px - 0px)".
Proof. vm_compute. reflexivity. Qed.

Example page0_run_trace :
  trace (updateMinWidth px_only px_engine page0).2
  = [Write "main" "min-width" "";
     Write "main" "min-width" "calc(600px - 240px - 0px)"].
Proof. vm_compute. reflexivity. Qed.

(** The engine model finds no pixel value in an expression over [auto]. *)
Example page_auto_unresolved :
  calc_px "calc(auto - fit-content - auto)" = None.
Proof. reflexivity. Qed.

(** ** The contract at concrete pages *)

(** C1 as stated fails.  On a page without a sidebar whose main element
    carries an override, the call throws, and the main element's inline
    [min-width] is changed (to the empty string); on a page without a main
    element the call throws as well. *)
Lemma missing_element_throws_and_clears :
  document page_no_sidebar !! "sidebar" = None ∧
  document page_no_sidebar !! "main" = Some main0 ∧
  inline main0 "min-width" = "calc(600px - 64px - 0px)" ∧
  (updateMinWidth px_only px_engine page_no_sidebar).1 = Throw TypeError ∧
  (∃ m', document (updateMinWidth px_only px_engine page_no_sidebar).2
           !! "main" = Some m' ∧
         inline m' "min-width" = "" ∧ style m' ≠ style main0) ∧
  document page_no_main !! "main" = None ∧
  (updateMinWidth px_only px_engine page_no_main).1 = Throw TypeError.
Proof.
  split; [reflexivity|]. split; [reflexivity|]. split; [reflexivity|].
  split; [reflexivity|]. split; [|split; reflexivity].
  exists (set_style "min-width" "" main0).
  split; [reflexivity|]. split; [reflexivity|].
  intros Heq.
  assert (H : style (set_style "min-width" "" main0) !! "min-width"
              = style main0 !! "min-width") by (by rewrite Heq).
  vm_compute in H. discriminate H.
Qed.

Lemma updateMinWidth_missing_element_witness :
  (document page_no_sidebar !! "sidebar" = None
   ∨ document page_no_sidebar !! "main" = None) ∧
  ∃ p', updateMinWidth px_only px_engine page_no_sidebar
          = (Throw TypeError, p') ∧
        (document page_no_sidebar !! "main" = None → p' = page_no_sidebar) ∧
        (∀ m, document page_no_sidebar !! "main" = Some m →
              p' = Page (onload page_no_sidebar) (onresize page_no_sidebar)
                        (<["main" := set_style "min-width" "" m]>
                           (document page_no_sidebar))
                        (trace page_no_sidebar
                           ++ [Write "main" "min-width" ""])).
Proof.
  split; [left; reflexivity|].
  apply (updateMinWidth_missing_element px_only px_engine page_no_sidebar).
  left; reflexivity.
Defined.

(** The sidebar shrinks from 240px to 64px between the two calls. *)
Lemma override_cleared_before_measuring_witness :
  document page0 !! "main" = Some main0 ∧
  document page0 !! "sidebar" = Some sidebar0 ∧
  let swap r := Page (onload r) (onresize r)
                     (<["sidebar" := sidebar_narrow]> (document r))
                     (trace r) in
  ∃ (p1 p2 : page) (m2 : element),
    updateMinWidth px_only px_engine page0 = (Return (), p1) ∧
    trace p1 = (trace page0
                ++ [Write "main" "min-width" "";
                    Write "main" "min-width" "calc(600px - 240px - 0px)"])%list ∧
    updateMinWidth px_only px_engine (swap p1) = (Return (), p2) ∧
    trace p2 = (trace p1
                ++ [Write "main" "min-width" "";
                    Write "main" "min-width" "calc(600px - 64px - 0px)"])%list ∧
    document p2 !! "main" = Some m2 ∧
    inline m2 "min-width"
      = (if parses px_only "min-width" "calc(600px - 64px - 0px)"
         then "calc(600px - 64px - 0px)" else "") ∧
    document p2 = document (updateMinWidth px_only px_engine (swap page0)).2.
Proof.
  split; [reflexivity|]. split; [reflexivity|].
  apply (override_cleared_before_measuring px_only px_engine page0 main0
           sidebar0 sidebar_narrow); reflexivity.
Defined.

(** On that run the first call leaves the 240px expression, which the
    second call replaces by the 64px one. *)
Example override_cleared_run :
  let p1 := (updateMinWidth px_only px_engine page0).2 in
  let p2 := (updateMinWidth px_only px_engine
               (Page (onload p1) (onresize p1)
                     (<["sidebar" := sidebar_narrow]> (document p1))
                     (trace p1))).2 in
  (document p1 !! "main") ≫= (λ m, style m !! "min-width")
    = Some "calc(600px - 240px - 0px)" ∧
  (document p2 !! "main") ≫= (λ m, style m !! "min-width")
    = Some "calc(600px - 64px - 0px)".
Proof. split; vm_compute; reflexivity. Qed.



Lemma updateMinWidth_idempotent_witness :
  document page0 !! "main" = Some main0 ∧
  document page0 !! "sidebar" = Some sidebar0 ∧
  ∃ p1 p2 p1',
    updateMinWidth px_only px_engine page0 = (Return (), p1) ∧
    updateMinWidth px_only px_engine p1 = (Return (), p2) ∧
    document p2 = document p1 ∧
    updateMinWidth px_only px_engine
      (Page (onload page0) (onresize page0)
            (<["main" := set_style "min-width" "calc(1px - 2px - 3px)" main0]>
               (document page0))
            (trace page0))
      = (Return (), p1') ∧
    document p1' = document p1.
Proof.
  split; [reflexivity|]. split; [reflexivity|].
  apply (updateMinWidth_idempotent px_only px_engine page0 main0 sidebar0
           "calc(1px - 2px - 3px)"); reflexivity.
Defined.

Lemma scenario_expanded_sidebar_witness :
  document page0 !! "main" = Some main0 ∧
  document page0 !! "sidebar" = Some sidebar0 ∧
  computed px_engine (set_style "min-width" "" main0) "min-width" = "600px" ∧
  computed px_engine sidebar0 "width" = "240px" ∧
  computed px_engine sidebar0 "left" = "0px" ∧
  ∃ p' m',
    updateMinWidth px_only px_engine page0 = (Return (), p') ∧
    document p' !! "main" = Some m' ∧
    inline m' "min-width" = "calc(600px - 240px - 0px)" ∧
    calc_px (inline m' "min-width") = Some 360%Z.
Proof.
  do 5 (split; [reflexivity|]).
  apply (scenario_expanded_sidebar px_only px_engine page0 main0 sidebar0);
    reflexivity.
Defined.

Lemma scenario_collapsed_sidebar_witness :
  document page_collapsed !! "main" = Some main0 ∧
  document page_collapsed !! "sidebar" = Some sidebar_collapsed ∧
  computed px_engine (set_style "min-width" "" main0) "min-width" = "600px" ∧
  computed px_engine sidebar_collapsed "width" = "240px" ∧
  computed px_engine sidebar_collapsed "left" = "-240px" ∧
  ∃ p' m',
    updateMinWidth px_only px_engine page_collapsed = (Return (), p') ∧
    document p' !! "main" = Some m' ∧
    inline m' "min-width" = "calc(600px - 240px - -240px)" ∧
    calc_px (inline m' "min-width") = Some 600%Z.
Proof.
  do 5 (split; [reflexivity|]).
  apply (scenario_collapsed_sidebar px_only px_engine page_collapsed main0
           sidebar_collapsed); reflexivity.
Defined.

Lemma measurements_propagated_verbatim_witness :
  document page_auto !! "main" = Some main_auto ∧
  document page_auto !! "sidebar" = Some sidebar_static ∧
  computed px_engine (set_style "min-width" "" main_auto) "min-width"
    = "auto" ∧
  computed px_engine sidebar_static "width" = "fit-content" ∧
  computed px_engine sidebar_static "left" = "auto" ∧
  ∃ p' : page,
    updateMinWidth px_only px_engine page_auto = (Return (), p') ∧
    trace p'
      = (trace page_auto ++
         [Write "main" "min-width" "";
          Write "main" "min-width"
            ("calc(" +:+ "auto" +:+ " - " +:+ "fit-content"
             +:+ " - " +:+ "auto" +:+ ")")])%list.
Proof.
  do 5 (split; [reflexivity|]).
  apply (measurements_propagated_verbatim px_only px_engine "auto"
           "fit-content" "auto" page_auto main_auto sidebar_static);
    reflexivity.
Defined.

Lemma script_without_sidebar_witness :
  document page_no_sidebar !! "sidebar" = None ∧
  script page_no_sidebar =
    (Throw TypeError,
     Page (Some UpdateMinWidth) (Some UpdateMinWidth)
          (document page_no_sidebar) (trace page_no_sidebar)).
Proof.
  split; [reflexivity|].
  apply (script_without_sidebar page_no_sidebar). reflexivity.
Defined.



(** * Beyond the contract: the script as a whole *)

(** ** Loading *)

(** X1.  The top level returns normally exactly when the page has an
    element with id [sidebar], and throws a [TypeError] exactly when it has
    none; in both cases the load and resize slots hold [updateMinWidth]
    afterwards. *)
Theorem script_returns_iff_sidebar (p : page) :
  ((script p).1 = Return () ↔ is_Some (document p !! "sidebar")) ∧
  ((script p).1 = Throw TypeError ↔ document p !! "sidebar" = None) ∧
  onload (script p).2 = Some UpdateMinWidth ∧
  onresize (script p).2 = Some UpdateMinWidth.
Proof.
  destruct (document p !! "sidebar") as [sb|] eqn:Hsb.
  - rewrite (script_with_sidebar _ _ Hsb); simpl.
    repeat split; eauto; discriminate.
  - rewrite (script_without_sidebar_run _ Hsb); simpl.
    repeat split; eauto; try discriminate. by intros [? ?].
Qed.

(** X2.  Loading the script assigns no style: the write log, every
    element other than the sidebar, and the sidebar's inline style and
    style-sheet values are as before.  The one change to the document is the
    [transitionend] listener appended to the sidebar's listeners, when there
    is a sidebar. *)
Theorem script_only_adds_listener (p : page) :
  let p' := (script p).2 in
  trace p' = trace p ∧
  (∀ id, id ≠ "sidebar" → document p' !! id = document p !! id) ∧
  match document p !! "sidebar" with
  | Some sb =>
      document p' !! "sidebar"
      = Some (Element (style sb) (sheet sb)
                      (listeners sb ++ [("transitionend", UpdateMinWidth)]))
  | None => document p' !! "sidebar" = None
  end.
Proof.
  destruct (document p !! "sidebar") as [sb|] eqn:Hsb.
  - rewrite (script_with_sidebar _ _ Hsb); simpl.
    split; [done|]. split.
    + intros id Hid. by rewrite lookup_insert_ne.
    + by rewrite lookup_insert_eq.
  - rewrite (script_without_sidebar_run _ Hsb); simpl.
    by rewrite Hsb.
Qed.

(** ** Events after loading *)

Section Wiring.

Variable accepts : string → string → bool.
Variable cascade : string → string → string → string.
Variable foreign : string → js unit.

Local Abbreviation computed := (computed cascade).
Local Abbreviation updateMinWidth := (updateMinWidth accepts cascade).
Local Abbreviation dispatch := (dispatch accepts cascade foreign).
Local Abbreviation fire_load := (fire_load accepts cascade foreign).
Local Abbreviation fire_resize := (fire_resize accepts cascade foreign).
Local Abbreviation fire := (fire accepts cascade foreign).


Lemma dispatch_own q : dispatch UpdateMinWidth q = (updateMinWidth q).2.
Proof. reflexivity. Qed.

Lemma fire_load_set p h : onload p = Some h → fire_load p = dispatch h p.
Proof. intros Hh. unfold fire_load. by rewrite Hh. Qed.

Lemma fire_resize_set p h : onresize p = Some h → fire_resize p = dispatch h p.
Proof. intros Hh. unfold fire_resize. by rewrite Hh. Qed.


Lemma fire_absent id ev p : document p !! id = None → fire id ev p = p.
Proof. intros Hel. unfold fire. by rewrite Hel. Qed.

Lemma dispatch_run q mq sbq :
  document q !! "main" = Some mq →
  document q !! "sidebar" = Some sbq →
  dispatch UpdateMinWidth q =
    Page (onload q) (onresize q)
         (<["main" := final accepts cascade mq sbq]> (document q))
         (trace q ++ [Write "main" "min-width" "";
                      Write "main" "min-width" (applied cascade mq sbq)]).
Proof.
  intros Hm Hsb.
  by rewrite dispatch_own, (updateMinWidth_run _ _ _ _ _ Hm Hsb).
Qed.




End Wiring.

(** ** Strings *)

Lemma app_cons c a b : String c a +:+ b = String c (a +:+ b).
Proof. reflexivity. Qed.

Lemma app_empty_l b : "" +:+ b = b.
Proof. reflexivity. Qed.

Lemma app_string_assoc a b c : (a +:+ b) +:+ c = a +:+ b +:+ c.
Proof.
  induction a as [|x a IH]; [done|].
  by rewrite !app_cons, IH.
Qed.

Lemma length_app_string a b :
  String.length (a +:+ b) = String.length a + String.length b.
Proof.
  induction a as [|x a IH]; [done|].
  rewrite app_cons; simpl. by rewrite IH.
Qed.

Lemma substring_all b : String.substring 0 (String.length b) b = b.
Proof. induction b as [|x b IH]; [done|]. simpl. by rewrite IH. Qed.

Lemma substring_prefix a b :
  String.substring 0 (String.length a) (a +:+ b) = a.
Proof.
  induction a as [|x a IH].
  - rewrite app_empty_l. by destruct b.
  - rewrite app_cons; simpl. by rewrite IH.
Qed.

Lemma substring_suffix a b :
  String.substring (String.length a) (String.length b) (a +:+ b) = b.
Proof.
  induction a as [|x a IH].
  - rewrite app_empty_l. apply substring_all.
  - rewrite app_cons; simpl. apply IH.
Qed.

(** Appending the same text on the right is injective. *)
Lemma app_string_inj_r a a' t : a +:+ t = a' +:+ t → a = a'.
Proof.
  intros Heq.
  assert (Hlen : String.length a = String.length a').
  { apply (f_equal String.length) in Heq.
    rewrite !length_app_string in Heq. lia. }
  rewrite <- (substring_prefix a t), <- (substring_prefix a' t).
  by rewrite Heq, Hlen.
Qed.

(** Two texts that agree up to and including their first space. *)
Lemma split_at_first_space a a' r r' :
  no_space a = true → no_space a' = true →
  a +:+ String " " r = a' +:+ String " " r' →
  a = a' ∧ r = r'.
Proof.
  revert a'. induction a as [|x a IH]; intros [|x' a'] Ha Ha' Heq.
  - rewrite !app_empty_l in Heq. by simplify_eq.
  - rewrite app_empty_l, app_cons in Heq.
    injection Heq as <- _. by simpl in Ha'.
  - rewrite app_empty_l, app_cons in Heq.
    injection Heq as -> _. by simpl in Ha.
  - rewrite !app_cons in Heq. injection Heq as -> Heq.
    simpl in Ha, Ha'.
    apply andb_prop in Ha as [_ Ha]. apply andb_prop in Ha' as [_ Ha'].
    by destruct (IH a' Ha Ha' Heq) as [-> ->].
Qed.

(** [words] reads a space-free piece in one go. *)
Lemma words_piece a : ∀ rest cur,
  no_space a = true → words (a +:+ rest) cur = words rest (cur +:+ a).
Proof.
  induction a as [|x a IH]; intros rest cur Ha.
  - rewrite app_empty_l.
    replace (cur +:+ "") with cur; [done|].
    clear. induction cur as [|y cur IH]; [done|].
    by rewrite app_cons, <- IH.
  - simpl in Ha. apply andb_prop in Ha as [Hx Ha].
    rewrite app_cons; simpl.
    destruct (bool_decide (x = " "%char)); [done|].
    rewrite (IH _ _ Ha). by rewrite app_string_assoc, app_cons, app_empty_l.
Qed.

Lemma words_space rest cur : words (String " " rest) cur = cur :: words rest "".
Proof. reflexivity. Qed.

Lemma app_empty_r a : a +:+ "" = a.
Proof. induction a as [|x a IH]; [done|]. by rewrite app_cons, IH. Qed.

Lemma words_char c rest cur :
  c ≠ " "%char → words (String c rest) cur = words rest (cur +:+ String c "").
Proof. intros Hc. simpl. by rewrite bool_decide_eq_false_2. Qed.

Lemma words_last a cur : no_space a = true → words a cur = [cur +:+ a].
Proof.
  intros Ha. rewrite <- (app_empty_r a) at 1.
  by rewrite words_piece.
Qed.

(** The body of a composed expression splits into its three operands and
    the two minus signs. *)
Lemma words_calc_body s1 s2 s3 :
  no_space s1 = true → no_space s2 = true → no_space s3 = true →
  words (s1 +:+ " - " +:+ s2 +:+ " - " +:+ s3) "" = [s1; "-"; s2; "-"; s3].
Proof.
  intros H1 H2 H3.
  rewrite (words_piece s1), app_empty_l by done.
  rewrite !app_cons, !app_empty_l.
  rewrite words_space, words_char, app_empty_l, words_space by done.
  rewrite (words_piece s2), app_empty_l by done.
  rewrite words_space, words_char, app_empty_l, words_space by done.
  by rewrite words_last.
Qed.

(** ** Pixel lengths *)

Lemma is_digit_not_space c : is_digit c = true → c ≠ " "%char.
Proof. by intros Hd ->. Qed.

Lemma px_digits_no_space s : ∀ acc seen v,
  px_digits s acc seen = Some v → no_space s = true.
Proof.
  induction s as [|c rest IH]; intros acc seen v Hp; [done|].
  simpl in Hp. simpl.
  destruct (is_digit c) eqn:Hd.
  - rewrite bool_decide_eq_false_2 by by apply is_digit_not_space.
    simpl. by eapply IH.
  - destruct seen; [|done]. simpl in Hp.
    destruct (bool_decide (String c rest = "px")) eqn:Hpx; [|done].
    apply bool_decide_eq_true_1 in Hpx. by injection Hpx as -> ->.
Qed.

Lemma parse_px_other c rest :
  c ≠ "-"%char → c ≠ "+"%char →
  parse_px (String c rest) = px_digits (String c rest) 0 false.
Proof.
  intros Hm Hp.
  destruct c as [[] [] [] [] [] [] [] []]; done.
Qed.

(** A text that reads as a pixel length is a single token. *)
Lemma parse_px_no_space s v : parse_px s = Some v → no_space s = true.
Proof.
  destruct s as [|c rest]; [done|]. intros Hp.
  destruct (decide (c = "-"%char)) as [-> | Hm].
  { simpl in Hp. destruct (px_digits rest 0 false) eqn:Hd; [|done].
    simpl. by eapply px_digits_no_space. }
  destruct (decide (c = "+"%char)) as [-> | Hpl].
  { simpl in Hp. simpl. by eapply px_digits_no_space. }
  rewrite parse_px_other in Hp by done.
  by eapply px_digits_no_space.
Qed.

(** [calc_px] on a text of the form [calc(body)]. *)
Lemma calc_px_wrap body :
  calc_px ("calc(" +:+ body +:+ ")")
  = match words body "" with
    | t :: rest =>
        match parse_px t with
        | Some v => eval_terms v rest
        | None => None
        end
    | [] => None
    end.
Proof.
  unfold calc_px.
  assert (Hpre : String.prefix "calc(" ("calc(" +:+ body +:+ ")") = true).
  { rewrite !app_cons, app_empty_l; simpl.
    by destruct (body +:+ ")"). }
  assert (Hlen : String.length ("calc(" +:+ body +:+ ")")
                 = 6 + String.length body).
  { rewrite !length_app_string; simpl. lia. }
  rewrite Hpre, Hlen; simpl.
  rewrite !app_empty_l, Nat.sub_0_r.
  pose proof (substring_suffix body ")") as Hs. simpl in Hs.
  rewrite Hs, substring_prefix.
  by rewrite bool_decide_eq_true_2.
Qed.

(** The composed expression of three pixel lengths resolves to their
    difference. *)
Lemma calc_px_calc_expr s1 s2 s3 a b c :
  parse_px s1 = Some a → parse_px s2 = Some b → parse_px s3 = Some c →
  calc_px (calc_expr s1 s2 s3) = Some (a - b - c)%Z.
Proof.
  intros H1 H2 H3.
  replace (calc_expr s1 s2 s3)
    with ("calc(" +:+ (s1 +:+ " - " +:+ s2 +:+ " - " +:+ s3) +:+ ")")
    by (unfold calc_expr; by rewrite !app_string_assoc).
  rewrite calc_px_wrap, words_calc_body by by eapply parse_px_no_space.
  rewrite H1. simpl. by rewrite H2, H3.
Qed.

(** ** What the applied expression amounts to *)

Section Resolution.

Variable accepts : string → string → bool.
Variable cascade : string → string → string → string.
Variable foreign : string → js unit.

Local Abbreviation computed := (computed cascade).
Local Abbreviation updateMinWidth := (updateMinWidth accepts cascade).
Local Abbreviation fire_resize := (fire_resize accepts cascade foreign).

(** A call with pixel measurements leaves the composed expression, and the
    expression evaluates to the difference. *)
Lemma inline_final_px m sb a b c :
  parse_px (computed (set_style "min-width" "" m) "min-width") = Some a →
  parse_px (computed sb "width") = Some b →
  parse_px (computed sb "left") = Some c →
  calc_px (inline (final accepts cascade m sb) "min-width")
  = Some (a - b - c)%Z.
Proof.
  intros Ha Hb Hc.
  assert (He : calc_px (applied cascade m sb) = Some (a - b - c)%Z)
    by by apply calc_px_calc_expr.
  by rewrite inline_final, (parses_px accepts _ _ _ He).
Qed.

(** X5.  Whenever the three measurements are whole-pixel lengths [a], [b]
    and [c] (the main element's [min-width] with the override cleared, the
    sidebar's [width] and its [left]), the expression the call applies
    resolves to [a - b - c] pixels. *)
Theorem pixel_measurements_resolve (p : page) (m sb : element) (a b c : Z) :
  document p !! "main" = Some m →
  document p !! "sidebar" = Some sb →
  parse_px (computed (set_style "min-width" "" m) "min-width") = Some a →
  parse_px (computed sb "width") = Some b →
  parse_px (computed sb "left") = Some c →
  ∃ p' m',
    updateMinWidth p = (Return (), p') ∧
    document p' !! "main" = Some m' ∧
    calc_px (inline m' "min-width") = Some (a - b - c)%Z.
Proof.
  intros Hm Hsb Ha Hb Hc.
  eexists _, (final accepts cascade m sb).
  split; [by apply updateMinWidth_run|].
  split; [by apply lookup_insert_eq|].
  by apply inline_final_px.
Qed.

(** X6.  With whole-pixel measurements, a resize event after the sidebar's
    width changed from [b] to [b2] (its [left] staying [c]) takes the main
    element's minimum width, a negative length counting as zero, from
    [max 0 (a - b - c)] to [max 0 (a - b2 - c)].  It never shrinks when the
    sidebar shrinks, and as long as neither value is cut off at zero it
    moves by exactly [b - b2]. *)
Theorem resize_tracks_sidebar_width
    (p : page) (m sb sb2 : element) (a b b2 c : Z) :
  document p !! "main" = Some m →
  document p !! "sidebar" = Some sb →
  onresize p = Some UpdateMinWidth →
  parse_px (computed (set_style "min-width" "" m) "min-width") = Some a →
  parse_px (computed sb "width") = Some b →
  parse_px (computed sb "left") = Some c →
  parse_px (computed sb2 "width") = Some b2 →
  parse_px (computed sb2 "left") = Some c →
  let p1 := fire_resize p in
  let p2 := fire_resize
              (Page (onload p1) (onresize p1)
                    (<["sidebar" := sb2]> (document p1)) (trace p1)) in
  let r1 := Z.max 0 (a - b - c) in
  let r2 := Z.max 0 (a - b2 - c) in
  ∃ m1 m2 : element,
    document p1 !! "main" = Some m1 ∧
    used_min_width (inline m1 "min-width") = Some r1 ∧
    document p2 !! "main" = Some m2 ∧
    used_min_width (inline m2 "min-width") = Some r2 ∧
    ((b2 ≤ b)%Z → (r1 ≤ r2)%Z) ∧
    ((b + c ≤ a)%Z → (b2 + c ≤ a)%Z → (r2 - r1 = b - b2)%Z).
Proof.
  intros Hm Hsb Hr Ha Hb Hc Hb2 Hc2 p1 p2 r1 r2.
  assert (Hp1 : p1 = dispatch accepts cascade foreign UpdateMinWidth p)
    by by apply fire_resize_set.
  rewrite (dispatch_run accepts cascade foreign _ _ _ Hm Hsb) in Hp1.
  assert (Hr1 : onresize p1 = Some UpdateMinWidth) by by rewrite Hp1.
  assert (Hm1 : document p1 !! "main" = Some (final accepts cascade m sb))
    by (rewrite Hp1; apply lookup_insert_eq).
  set (q := Page (onload p1) (onresize p1) _ (trace p1)) in p2.
  assert (Hmq : document q !! "main" = Some (final accepts cascade m sb))
    by (subst q; simpl; by rewrite lookup_insert_ne).
  assert (Hsq : document q !! "sidebar" = Some sb2) by apply lookup_insert_eq.
  assert (Hp2 : p2 = dispatch accepts cascade foreign UpdateMinWidth q)
    by by apply fire_resize_set.
  rewrite (dispatch_run accepts cascade foreign _ _ _ Hmq Hsq) in Hp2.
  rewrite (final_cleared accepts cascade (final accepts cascade m sb) m sb2)
    in Hp2 by apply store_cleared_again.
  exists (final accepts cascade m sb), (final accepts cascade m sb2).
  split; [exact Hm1|].
  split; [unfold used_min_width; by rewrite (inline_final_px m sb a b c)|].
  split; [rewrite Hp2; apply lookup_insert_eq|].
  split; [unfold used_min_width; by rewrite (inline_final_px m sb2 a b2 c)|].
  subst r1 r2. split; lia.
Qed.

(** X7.  A call that failed for want of a sidebar leaves nothing behind
    that a later call would trip over: once a sidebar [sb] is on the page,
    the next call returns, and the document it leaves is the one it would
    have left had the failed call never happened. *)
Theorem failed_call_recovers (p : page) (m sb : element) :
  document p !! "main" = Some m →
  document p !! "sidebar" = None →
  let with_sidebar r :=
    Page (onload r) (onresize r) (<["sidebar" := sb]> (document r))
         (trace r) in
  let q := (updateMinWidth p).2 in
  (updateMinWidth p).1 = Throw TypeError ∧
  (updateMinWidth (with_sidebar q)).1 = Return () ∧
  document (updateMinWidth (with_sidebar q)).2
    = document (updateMinWidth (with_sidebar p)).2.
Proof.
  intros Hm Hsb. simpl.
  rewrite (updateMinWidth_no_sidebar _ _ _ _ Hm Hsb); simpl.
  split; [done|].
  set (q' := Page _ _ (<["sidebar" := sb]> (<["main" := _]> _)) _).
  set (p' := Page _ _ (<["sidebar" := sb]> (document p)) _).
  assert (Hmq : document q' !! "main" = Some (set_style "min-width" "" m)).
  { subst q'; simpl. rewrite lookup_insert_ne by done. apply lookup_insert_eq. }
  assert (Hsq : document q' !! "sidebar" = Some sb) by apply lookup_insert_eq.
  assert (Hmp : document p' !! "main" = Some m).
  { subst p'; simpl. by rewrite lookup_insert_ne. }
  assert (Hsp : document p' !! "sidebar" = Some sb) by apply lookup_insert_eq.
  rewrite (updateMinWidth_run _ _ _ _ _ Hmq Hsq).
  rewrite (updateMinWidth_run _ _ _ _ _ Hmp Hsp); simpl.
  split; [done|].
  rewrite final_set_style.
  apply map_eq; intros i.
  destruct (decide (i = "main")) as [-> | Hi].
  - by rewrite !lookup_insert_eq.
  - rewrite !(lookup_insert_ne _ "main") by done.
    destruct (decide (i = "sidebar")) as [-> | Hi'].
    + by rewrite !lookup_insert_eq.
    + by rewrite !lookup_insert_ne.
Qed.

End Resolution.

(** ** The composition is unambiguous for single-token measurements *)

(** X8.  When the first two measurements contain no space, the composed
    expression determines all three measurements: two calls apply the same
    text only if they measured the same three strings. *)
Theorem calc_expr_inj (w1 w2 w3 v1 v2 v3 : string) :
  no_space w1 = true → no_space w2 = true →
  no_space v1 = true → no_space v2 = true →
  calc_expr w1 w2 w3 = calc_expr v1 v2 v3 →
  w1 = v1 ∧ w2 = v2 ∧ w3 = v3.
Proof.
  intros Hw1 Hw2 Hv1 Hv2 Heq. unfold calc_expr in Heq.
  apply (inj (String.app "calc(")) in Heq.
  rewrite !app_cons, !app_empty_l in Heq.
  apply split_at_first_space in Heq as [-> Heq]; [|done..].
  injection Heq as Heq.
  apply split_at_first_space in Heq as [-> Heq]; [|done..].
  injection Heq as Heq.
  by apply app_string_inj_r in Heq as ->.
Qed.

(** With a space inside a measurement the text no longer tells the operands
    apart. *)
Example calc_expr_ambiguous :
  calc_expr "1px - 2px" "3px" "4px" = calc_expr "1px" "2px - 3px" "4px".
Proof. reflexivity. Qed.


(** ** Pages without a sidebar *)

Section WithoutSidebar.

Variable accepts : string → string → bool.
Variable cascade : string → string → string → string.
Variable foreign : string → js unit.

Local Abbreviation fire_load := (fire_load accepts cascade foreign).
Local Abbreviation fire_resize := (fire_resize accepts cascade foreign).
Local Abbreviation fire := (fire accepts cascade foreign).

(** X9.  On a page that has a main element but no sidebar the script
    stops before the listener registration, yet the two window handlers are
    in place: every [load] or [resize] event then clears the main element's
    inline [min-width] and changes nothing else in the document, and a
    [transitionend] event on the missing sidebar does nothing. *)
Theorem events_without_sidebar (p : page) (m : element) :
  document p !! "main" = Some m →
  document p !! "sidebar" = None →
  let p1 := (script p).2 in
  document (fire_load p1)
    = <["main" := set_style "min-width" "" m]> (document p) ∧
  document (fire_resize p1)
    = <["main" := set_style "min-width" "" m]> (document p) ∧
  fire "sidebar" "transitionend" p1 = p1.
Proof.
  intros Hm Hsb. rewrite (script_without_sidebar_run _ Hsb); simpl.
  set (p1 := Page _ _ _ _).
  assert (Hrun : dispatch accepts cascade foreign UpdateMinWidth p1
                 = Page (onload p1) (onresize p1)
                        (<["main" := set_style "min-width" "" m]> (document p))
                        (trace p ++ [Write "main" "min-width" ""])).
  { rewrite dispatch_own.
    by rewrite (updateMinWidth_no_sidebar accepts cascade p1 m Hm Hsb). }
  rewrite (fire_load_set _ _ _ p1 UpdateMinWidth) by done.
  rewrite (fire_resize_set _ _ _ p1 UpdateMinWidth) by done.
  rewrite Hrun, fire_absent by done. done.
Qed.

End WithoutSidebar.

(** ** The wider script at concrete pages *)


(** On a page whose sidebar is not positioned the load event assigns an
    expression the engine does not take, and the inline [min-width] stays
    empty. *)
Example load_on_static_page :
  let p2 := fire_load px_only px_engine idle (script page_static).2 in
  last (trace p2)
    = Some (Write "main" "min-width" "calc(600px - fit-content - auto)") ∧
  (document p2 !! "main") ≫= (λ m, style m !! "min-width") = Some "".
Proof. split; vm_compute; reflexivity. Qed.


(** Two listeners of the script run on [page0]: four assignments.  On
    [page_shared] the earlier listener belongs to another script, which here
    does nothing: two assignments. *)
Example transitionend_writes :
  Forall (λ h, h = UpdateMinWidth)
         (handlers_for "transitionend" (listeners sidebar0)) ∧
  length (trace (fire px_only px_engine idle "sidebar" "transitionend"
                   (script page0).2)) = 4 ∧
  handlers_for "transitionend" (listeners sidebar_shared)
    = [Foreign "analytics"] ∧
  length (trace (fire px_only px_engine idle "sidebar" "transitionend"
                   (script page_shared).2)) = 2.
Proof.
  split; [by repeat constructor|].
  split; [vm_compute; reflexivity|].
  split; vm_compute; reflexivity.
Qed.

Lemma pixel_measurements_resolve_witness :
  document page_collapsed !! "main" = Some main0 ∧
  document page_collapsed !! "sidebar" = Some sidebar_collapsed ∧
  parse_px (computed px_engine (set_style "min-width" "" main0) "min-width")
    = Some 600%Z ∧
  parse_px (computed px_engine sidebar_collapsed "width") = Some 240%Z ∧
  parse_px (computed px_engine sidebar_collapsed "left") = Some (-240)%Z ∧
  ∃ p' m',
    updateMinWidth px_only px_engine page_collapsed = (Return (), p') ∧
    document p' !! "main" = Some m' ∧
    calc_px (inline m' "min-width") = Some (600 - 240 - -240)%Z.
Proof.
  do 5 (split; [reflexivity|]).
  apply (pixel_measurements_resolve px_only px_engine page_collapsed main0
           sidebar_collapsed 600 240 (-240)); reflexivity.
Defined.

Lemma resize_tracks_sidebar_width_witness :
  document page0 !! "main" = Some main0 ∧
  document page0 !! "sidebar" = Some sidebar0 ∧
  onresize page0 = Some UpdateMinWidth ∧
  parse_px (computed px_engine (set_style "min-width" "" main0) "min-width")
    = Some 600%Z ∧
  parse_px (computed px_engine sidebar0 "width") = Some 240%Z ∧
  parse_px (computed px_engine sidebar0 "left") = Some 0%Z ∧
  parse_px (computed px_engine sidebar_narrow "width") = Some 64%Z ∧
  parse_px (computed px_engine sidebar_narrow "left") = Some 0%Z ∧
  let p1 := fire_resize px_only px_engine idle page0 in
  let p2 := fire_resize px_only px_engine idle
              (Page (onload p1) (onresize p1)
                    (<["sidebar" := sidebar_narrow]> (document p1))
                    (trace p1)) in
  let r1 := Z.max 0 (600 - 240 - 0) in
  let r2 := Z.max 0 (600 - 64 - 0) in
  ∃ m1 m2 : element,
    document p1 !! "main" = Some m1 ∧
    used_min_width (inline m1 "min-width") = Some r1 ∧
    document p2 !! "main" = Some m2 ∧
    used_min_width (inline m2 "min-width") = Some r2 ∧
    ((64 ≤ 240)%Z → (r1 ≤ r2)%Z) ∧
    ((240 + 0 ≤ 600)%Z → (64 + 0 ≤ 600)%Z → (r2 - r1 = 240 - 64)%Z).
Proof.
  do 8 (split; [reflexivity|]).
  apply (resize_tracks_sidebar_width px_only px_engine idle page0 main0
           sidebar0 sidebar_narrow 600 240 64 0); reflexivity.
Defined.

(** The values of two such runs.  A 600px main element goes from 360 to
    536 pixels.  A 100px main element is held at zero by the 240px sidebar
    and reaches 36 pixels with the 64px one: it gains 36, not 176. *)
Example resize_values :
  let resized pg :=
    let p1 := fire_resize px_only px_engine idle pg in
    let p2 := fire_resize px_only px_engine idle
                (Page (onload p1) (onresize p1)
                      (<["sidebar" := sidebar_narrow]> (document p1))
                      (trace p1)) in
    ((document p1 !! "main") ≫= (λ m, used_min_width (inline m "min-width")),
     (document p2 !! "main") ≫= (λ m, used_min_width (inline m "min-width")))
  in
  resized page0 = (Some 360%Z, Some 536%Z) ∧
  resized page_narrow = (Some 0%Z, Some 36%Z).
Proof. split; vm_compute; reflexivity. Qed.

Lemma failed_call_recovers_witness :
  document page_no_sidebar !! "main" = Some main0 ∧
  document page_no_sidebar !! "sidebar" = None ∧
  let with_sidebar r :=
    Page (onload r) (onresize r) (<["sidebar" := sidebar0]> (document r))
         (trace r) in
  let q := (updateMinWidth px_only px_engine page_no_sidebar).2 in
  (updateMinWidth px_only px_engine page_no_sidebar).1 = Throw TypeError ∧
  (updateMinWidth px_only px_engine (with_sidebar q)).1 = Return () ∧
  document (updateMinWidth px_only px_engine (with_sidebar q)).2
    = document (updateMinWidth px_only px_engine
                  (with_sidebar page_no_sidebar)).2.
Proof.
  split; [reflexivity|]. split; [reflexivity|].
  apply (failed_call_recovers px_only px_engine page_no_sidebar main0
           sidebar0); reflexivity.
Defined.

Lemma calc_expr_inj_witness :
  no_space "600px" = true ∧ no_space "240px" = true ∧
  calc_expr "600px" "240px" "-240px" = calc_expr "600px" "240px" "-240px" ∧
  "600px" = "600px" ∧ "240px" = "240px" ∧ "-240px" = "-240px".
Proof.
  split; [reflexivity|]. split; [reflexivity|]. split; [reflexivity|].
  apply (calc_expr_inj "600px" "240px" "-240px" "600px" "240px" "-240px");
    reflexivity.
Defined.

Lemma events_without_sidebar_witness :
  document page_no_sidebar !! "main" = Some main0 ∧
  document page_no_sidebar !! "sidebar" = None ∧
  let p1 := (script page_no_sidebar).2 in
  document (fire_load px_only px_engine idle p1)
    = <["main" := set_style "min-width" "" main0]>
        (document page_no_sidebar) ∧
  document (fire_resize px_only px_engine idle p1)
    = <["main" := set_style "min-width" "" main0]>
        (document page_no_sidebar) ∧
  fire px_only px_engine idle "sidebar" "transitionend" p1 = p1.
Proof.
  split; [reflexivity|]. split; [reflexivity|].
  apply (events_without_sidebar px_only px_engine idle page_no_sidebar main0);
    reflexivity.
Defined.
